(** * The live-transcription component and the summarizer route

    A shallow embedding of [src/components/LiveTranscription.tsx] and of
    [src/app/api/summarizer/route.ts].

    The React component is a record of its [useState] cells together with
    the [recognition] ref; every handler is a function on that record.  The
    host (browser) side is kept in the same record: the call log of the
    speech engine, the requests that [fetch] has sent and that have not
    settled yet, and the trace of [alert] / [console] / [fetch] effects.

    The handlers of the tabbed revision of the component are the same,
    line for line; [react] is the page without tabs, [page_react] adds the
    clipboard to it, and [tabbed_react] is the tabbed revision. *)

From Stdlib Require Import Ascii String.
From stdpp Require Import base list strings.

Local Open Scope stdpp_scope.

(** ** Strings *)

(** JavaScript truthiness of a string: only the empty string is falsy. *)
Definition truthy (s : string) : bool :=
  match s with
  | EmptyString => false
  | String _ _ => true
  end.

(** [a || b] on an optional string property: [undefined] and [""] are the
    falsy cases. *)
Definition or_default (v : option string) (d : string) : string :=
  match v with
  | Some s => if truthy s then s else d
  | None => d
  end.

(** A string made of white space only (the empty string included). *)
Fixpoint whitespace_only (s : string) : bool :=
  match s with
  | EmptyString => true
  | String c s' => Ascii.is_space c && whitespace_only s'
  end.

(** ** The speech engine (host object behind [webkitSpeechRecognition]) *)

Inductive EngineCall := CallStart | CallStop.

Record SpeechRecognition := mkEngine {
  continuous : bool;
  interimResults : bool;
  calls : list EngineCall   (* [start()] / [stop()] received, oldest first *)
}.

Definition receive (c : EngineCall) (e : SpeechRecognition) : SpeechRecognition :=
  mkEngine (continuous e) (interimResults e) (calls e ++ [c]).

(** The last call the component made on the engine is a [start()]. *)
Definition engine_active (e : SpeechRecognition) : bool :=
  match last (calls e) with
  | Some CallStart => true
  | _ => false
  end.

Record SpeechRecognitionAlternative := mkAlternative { transcript : string }.

(** A recognition result: [result[0]] and the further alternatives. *)
Record SpeechRecognitionResult := mkResult {
  best : SpeechRecognitionAlternative;
  others : list SpeechRecognitionAlternative
}.

(** [interface SpeechRecognitionEvent { results; error }] *)
Record SpeechRecognitionEvent := mkEvent {
  results : list SpeechRecognitionResult;
  error : string
}.

(** ** The summarizer endpoint as the component sees it *)

Record SummarizerRequest := mkRequest { meetingText : option string }.

Record SummarizerData := mkData {
  summary : option string;
  errorField : option string
}.

(** How a [fetch] settles: the promise rejects, or a response arrives whose
    body either parses ([response.json()]) or does not. *)
Inductive FetchOutcome :=
  | Rejected (detail : string)
  | Responded (status : nat) (body : option SummarizerData).

Definition response_ok (status : nat) : bool :=
  (200 <=? status)%nat && (status <=? 299)%nat.

(** ** Effects visible outside the component *)

Inductive Effect :=
  | Alert (msg : string)
  | ConsoleWarn (msg : string)
  | ConsoleError (msg detail : string)
  | Fetch (url : string) (body : SummarizerRequest).

(** ** Component state *)

Record State := mkState {
  transcription : string;
  summarizedText : string;
  isListening : bool;
  isLoading : bool;
  isEditing : bool;
  isCopied : bool;
  recognition : option SpeechRecognition;   (* [recognition.current] *)
  detached : list SpeechRecognition;        (* engines the ref has let go of *)
  inflight : list SummarizerRequest;        (* requests sent, not yet settled *)
  effects : list Effect                     (* oldest first *)
}.

Definition initial : State :=
  mkState "" "" false false false false None [] [] [].

Definition setTranscription (f : string → string) (s : State) : State :=
  mkState (f (transcription s)) (summarizedText s) (isListening s) (isLoading s)
    (isEditing s) (isCopied s) (recognition s) (detached s) (inflight s) (effects s).

Definition setSummarizedText (v : string) (s : State) : State :=
  mkState (transcription s) v (isListening s) (isLoading s)
    (isEditing s) (isCopied s) (recognition s) (detached s) (inflight s) (effects s).

Definition setIsListening (b : bool) (s : State) : State :=
  mkState (transcription s) (summarizedText s) b (isLoading s)
    (isEditing s) (isCopied s) (recognition s) (detached s) (inflight s) (effects s).

Definition setIsLoading (b : bool) (s : State) : State :=
  mkState (transcription s) (summarizedText s) (isListening s) b
    (isEditing s) (isCopied s) (recognition s) (detached s) (inflight s) (effects s).

Definition setIsEditing (f : bool → bool) (s : State) : State :=
  mkState (transcription s) (summarizedText s) (isListening s) (isLoading s)
    (f (isEditing s)) (isCopied s) (recognition s) (detached s) (inflight s) (effects s).

Definition set_recognition (r : option SpeechRecognition) (s : State) : State :=
  mkState (transcription s) (summarizedText s) (isListening s) (isLoading s)
    (isEditing s) (isCopied s) r (detached s) (inflight s) (effects s).

Definition set_detached (l : list SpeechRecognition) (s : State) : State :=
  mkState (transcription s) (summarizedText s) (isListening s) (isLoading s)
    (isEditing s) (isCopied s) (recognition s) l (inflight s) (effects s).

Definition set_inflight (l : list SummarizerRequest) (s : State) : State :=
  mkState (transcription s) (summarizedText s) (isListening s) (isLoading s)
    (isEditing s) (isCopied s) (recognition s) (detached s) l (effects s).

Definition emit (e : Effect) (s : State) : State :=
  mkState (transcription s) (summarizedText s) (isListening s) (isLoading s)
    (isEditing s) (isCopied s) (recognition s) (detached s) (inflight s)
    (effects s ++ [e]).

Definition emit_all (es : list Effect) (s : State) : State :=
  mkState (transcription s) (summarizedText s) (isListening s) (isLoading s)
    (isEditing s) (isCopied s) (recognition s) (detached s) (inflight s)
    (effects s ++ es).

(** [recognition.current?.m()] : the call reaches the engine the ref holds,
    and nothing happens when the ref is null. *)
Definition call_engine (c : EngineCall) (s : State) : State :=
  set_recognition (receive c <$> recognition s) s.

(** ** The mount effect and the engine callbacks *)

Definition mount (supported : bool) (s : State) : State :=
  if supported then
    set_recognition (Some (mkEngine true false [])) s
  else
    emit (Alert "Speech Recognition is not supported in this browser.") s.

(** [Array.from(event.results).map(r => r[0].transcript).join("")] *)
Definition joined_transcript (ev : SpeechRecognitionEvent) : string :=
  String.concat "" (map (λ r, transcript (best r)) (results ev)).

Definition onresult (ev : SpeechRecognitionEvent) (s : State) : State :=
  setTranscription (λ prev, prev +:+ joined_transcript ev) s.

Definition onerror (ev : SpeechRecognitionEvent) (s : State) : State :=
  if String.eqb (error ev) "no-speech" then
    call_engine CallStart
      (emit (ConsoleWarn "No speech detected. Restarting recognition...") s)
  else
    emit (ConsoleError "Speech Recognition Error:" (error ev)) s.

(** The cleanup returned by the effect: stop the engine, null the ref. *)
Definition cleanup (s : State) : State :=
  let s1 := call_engine CallStop s in
  set_recognition None
    (set_detached (detached s1 ++ option_list (recognition s1)) s1).

(** ** Handlers *)

Definition startListening (s : State) : State :=
  match recognition s with
  | None => emit (Alert "Speech recognition is not initialized properly.") s
  | Some _ => setIsListening true (call_engine CallStart s)
  end.

Definition stopListening (s : State) : State :=
  match recognition s with
  | None => emit (Alert "Speech recognition is not initialized properly.") s
  | Some _ => setIsListening false (call_engine CallStop s)
  end.

(** [summarizeTranscription] up to its first [await]: the guard, the
    loading flag and the request handed to [fetch]. *)
Definition summarizeTranscription (s : State) : State :=
  if truthy (transcription s) then
    let req := mkRequest (Some (transcription s)) in
    set_inflight (inflight s ++ [req])
      (emit (Fetch "/api/summarizer" req) (setIsLoading true s))
  else
    emit (Alert "No transcription available to summarize.") s.

(** What [try / catch] leaves in [summarizedText] for a settled request,
    and what it logs. *)
Definition settled_text (o : FetchOutcome) : string :=
  match o with
  | Rejected _ => "Failed to summarize transcription."
  | Responded status body =>
      if response_ok status then
        match body with
        | Some data => or_default (summary data) "No summary available."
        | None => "Failed to summarize transcription."
        end
      else "Failed to summarize transcription."
  end.

Definition settled_log (o : FetchOutcome) : list Effect :=
  match o with
  | Rejected detail =>
      [ConsoleError "Error summarizing transcription:" detail]
  | Responded status body =>
      if response_ok status then
        match body with
        | Some _ => []
        | None => [ConsoleError "Error summarizing transcription:" "SyntaxError"]
        end
      else
        [ConsoleError "Error summarizing transcription:"
           "Failed to summarize transcription"]
  end.

(** An outcome that is a success carrying a non-empty summary string. *)
Definition success_with_summary (o : FetchOutcome) : bool :=
  match o with
  | Responded status (Some data) =>
      response_ok status &&
      match summary data with
      | Some text => truthy text
      | None => false
      end
  | _ => false
  end.

(** The rest of [summarizeTranscription], run when the oldest outstanding
    request settles with [o]; [finally] clears the loading flag. *)
Definition settle (o : FetchOutcome) (s : State) : State :=
  let s1 := set_inflight (tail (inflight s)) s in
  let s2 := emit_all (settled_log o) s1 in
  setIsLoading false (setSummarizedText (settled_text o) s2).

Definition clearTranscription (s : State) : State :=
  setSummarizedText "" (setTranscription (λ _, "") s).

Definition toggleEditing (s : State) : State :=
  setIsEditing negb s.

(** [onChange] of the textarea. *)
Definition onChange (value : string) (s : State) : State :=
  setTranscription (λ _, value) s.

(** ** What the JSX renders: buttons with their guards *)

Record Button := mkButton {
  rendered : bool;
  disabled : bool;
  onClick : State → State
}.

(** A click reaches [onClick] only on a button that is on the page and
    enabled. *)
Definition click (b : Button) (s : State) : State :=
  if rendered b && negb (disabled b) then onClick b s else s.

Definition startButton (s : State) : Button :=
  mkButton true (isListening s) startListening.

Definition stopButton (s : State) : Button :=
  mkButton true (negb (isListening s)) stopListening.

(** [{transcription && (<button disabled={isLoading} .../>)}] *)
Definition summarizeButton (s : State) : Button :=
  mkButton (truthy (transcription s)) (isLoading s) summarizeTranscription.

Definition clearButton (s : State) : Button :=
  mkButton (truthy (transcription s)) false clearTranscription.

Definition editButton (s : State) : Button :=
  mkButton (truthy (transcription s)) false toggleEditing.

(** The textarea exists only for a non-empty transcript in edit mode. *)
Definition textarea_rendered (s : State) : bool :=
  truthy (transcription s) && isEditing s.

(** ** The vocabulary of the design: capture state, summary result, intents *)

Inductive CaptureState := Idle | Listening | Stopped.

(** [Stopped] is the state after the cleanup: the ref is null and the
    engine it held has been let go.  A ref that never held an engine
    (unsupported browser) is [Idle]. *)
Definition captureState (s : State) : CaptureState :=
  match recognition s with
  | Some _ => if isListening s then Listening else Idle
  | None =>
      match detached s with
      | [] => Idle
      | _ :: _ => Stopped
      end
  end.

(** Some engine created by the component was last told to start. *)
Definition engine_running (s : State) : bool :=
  existsb engine_active (option_list (recognition s) ++ detached s).

Inductive SummaryResult :=
  | Empty
  | Pending
  | Ready (text : string)
  | Failed (message : string).

Definition failure_text : string := "Failed to summarize transcription.".
Definition no_summary_text : string := "No summary available.".

(** The component keeps one string and one flag.  The loading flag is
    [Pending]; otherwise an empty string is [Empty], one of the two
    fallback literals is [Failed], and any other text is [Ready]. *)
Definition summaryResult (s : State) : SummaryResult :=
  if isLoading s then Pending
  else if negb (truthy (summarizedText s)) then Empty
  else if String.eqb (summarizedText s) failure_text
          || String.eqb (summarizedText s) no_summary_text
       then Failed (summarizedText s)
  else Ready (summarizedText s).

Inductive Intent :=
  | StartCapture
  | StopCapture
  | RecognizedSegment (ev : SpeechRecognitionEvent)
  | CaptureError (ev : SpeechRecognitionEvent)
  | RequestSummary
  | SummarySettled (o : FetchOutcome)
  | ClearAll
  | ToggleEdit
  | EditedText (text : string)
  | Teardown.

(** One event of the page: user intents go through the rendered controls,
    engine events go to the callbacks, a settlement resumes the pending
    [summarizeTranscription] (there is nothing to resume without an
    outstanding request). *)
Definition react (i : Intent) (s : State) : State :=
  match i with
  | StartCapture => click (startButton s) s
  | StopCapture => click (stopButton s) s
  | RecognizedSegment ev => onresult ev s
  | CaptureError ev => onerror ev s
  | RequestSummary => click (summarizeButton s) s
  | SummarySettled o =>
      match inflight s with
      | [] => s
      | _ :: _ => settle o s
      end
  | ClearAll => click (clearButton s) s
  | ToggleEdit => click (editButton s) s
  | EditedText text => if textarea_rendered s then onChange text s else s
  | Teardown => cleanup s
  end.

Definition run (intents : list Intent) (s : State) : State :=
  fold_left (λ acc i, react i acc) intents s.

(** States of the page: the mounted component after any events. *)
Inductive ui_reachable : State → Prop :=
  | ui_mounted (supported : bool) : ui_reachable (mount supported initial)
  | ui_react (i : Intent) (s : State) :
      ui_reachable s → ui_reachable (react i s).

(** Delivery of a sequence of result events. *)
Definition deliver (evs : list SpeechRecognitionEvent) (s : State) : State :=
  fold_left (λ acc ev, onresult ev acc) evs s.

(** The text of each delivered segment, in delivery order. *)
Definition segment_texts (evs : list SpeechRecognitionEvent) : list string :=
  map joined_transcript evs.

(** The fragments of all events, flattened in delivery order. *)
Definition fragments (evs : list SpeechRecognitionEvent) : list string :=
  concat (map (λ ev, map (λ r, transcript (best r)) (results ev)) evs).

(** ** Invariants used below *)

(** Single flight: the loading flag is up exactly while one request is
    outstanding, and there is never a second one. *)
Definition single_flight (s : State) : Prop :=
  (isLoading s = true ∧ length (inflight s) = 1)
  ∨ (isLoading s = false ∧ inflight s = []).

(** Without an engine ever acquired the listening flag is down. *)
Definition unacquired_idle (s : State) : Prop :=
  recognition s = None → detached s = [] → isListening s = false.

(** ** The route handler [POST /api/summarizer] *)

Module Route.

Inductive Role := system | user | assistant.

Record Message := mkMessage { role : Role; content : string }.

(** The argument of [openai.chat.completions.create]; the temperature is
    kept in tenths. *)
Record ChatRequest := mkChatRequest {
  model : string;
  messages : list Message;
  temperature_tenths : nat
}.

Record CompletionMessage := mkCompletionMessage {
  completion_content : option string
}.

Record Choice := mkChoice { message : option CompletionMessage }.

(** What a [catch] receives: an [Error] with its message, or any other
    thrown value. *)
Inductive Thrown :=
  | ThrownError (error_message : string)
  | ThrownOther.

Inductive UpstreamOutcome :=
  | Completed (choices : list Choice)
  | Threw (t : Thrown).

(** [await request.json()]: a parsed body, or the parser's error. *)
Inductive RequestJson :=
  | Unparseable (t : Thrown)
  | Json (r : SummarizerRequest).

Record NextResponse := mkResponse {
  status : nat;
  json : SummarizerData
}.

Record Outcome := mkOutcome {
  response : NextResponse;
  upstream_calls : list ChatRequest;
  console : list Effect
}.

Definition system_prompt : string :=
  "You are a professional meeting summarization assistant. Your primary role is to read, analyze, and create a clear, concise, and comprehensive summary of the meeting transcript. Ensure that the summary covers the following four key sections: 1) Key Points, 2) Decisions Made, 3) Action Items, and 4) Follow-Up Tasks. Avoid redundancy and repetition across these sections, ensuring each point is listed only once in the most relevant section. Focus on clarity, brevity, and precision, ensuring no critical information is omitted. Always list action items with specific deadlines and the names of responsible persons if mentioned. ONLY USE THE DATA PROVIDED IN THE MEETING TEXT. DO NOT ADD NEW INFORMATION, INTERPRET, OR MAKE ASSUMPTIONS. The summary should be written in professional language that is clear, direct, and easy for all stakeholders to understand.".

Definition user_prompt (meetingText : string) : string :=
  "Here is the meeting text for you to summarize: " +:+ meetingText
    +:+ ". Please provide a summary following the structure outlined above.".

Definition chat_request (meetingText : string) : ChatRequest :=
  mkChatRequest "gemini-2.0-flash"
    [mkMessage system system_prompt; mkMessage user (user_prompt meetingText)]
    6.

Definition thrown_detail (t : Thrown) : string :=
  match t with
  | ThrownError m => m
  | ThrownOther => "non-Error value"
  end.

(** The [catch] block: log, answer 500 with the error's message or the
    default text. *)
Definition caught (t : Thrown) (sent : list ChatRequest) : Outcome :=
  mkOutcome
    (mkResponse 500
       (mkData None
          (Some match t with
                | ThrownError m => m
                | ThrownOther =>
                    "An unknown error occurred while generating the meeting summary."
                end)))
    sent
    [ConsoleError "API Error:" (thrown_detail t)].

(** [response.choices[0]?.message?.content || "No summary generated."] *)
Definition completion_text (choices : list Choice) : string :=
  or_default (c ← head choices; m ← message c; completion_content m)
    "No summary generated.".

(** The answer to a falsy [meetingText]. *)
Definition bad_request : Outcome :=
  mkOutcome
    (mkResponse 400
       (mkData None (Some "Meeting text is required in the request body.")))
    [] [].

Definition POST (request : RequestJson)
    (create : ChatRequest → UpstreamOutcome) : Outcome :=
  match request with
  | Unparseable t => caught t []
  | Json r =>
      match meetingText r with
      | Some text =>
          if truthy text then
            let req := chat_request text in
            match create req with
            | Completed choices =>
                mkOutcome
                  (mkResponse 200 (mkData (Some (completion_text choices)) None))
                  [req] []
            | Threw t => caught t [req]
            end
          else bad_request
      | None => bad_request
      end
  end.

End Route.

(** ** Copying the transcript *)

Definition setIsCopied (b : bool) (s : State) : State :=
  mkState (transcription s) (summarizedText s) (isListening s) (isLoading s)
    (isEditing s) b (recognition s) (detached s) (inflight s) (effects s).

(** The component together with the clipboard side of the host: the texts
    handed to [navigator.clipboard.writeText], the writes whose promise has
    not settled, and the number of [setTimeout(..., 2000)] callbacks still
    to run. *)
Record Page := mkPage {
  core : State;
  clipboard : list string;
  writing : list string;
  timers : nat
}.

Definition on_core (f : State → State) (p : Page) : Page :=
  mkPage (f (core p)) (clipboard p) (writing p) (timers p).

Inductive WriteOutcome :=
  | Written
  | WriteFailed (detail : string).

(** [copyTranscription] up to the promise: the guard and the write. *)
Definition copyTranscription (p : Page) : Page :=
  if truthy (transcription (core p)) then
    mkPage (core p) (clipboard p ++ [transcription (core p)])
      (writing p ++ [transcription (core p)]) (timers p)
  else p.

(** [.then(...)] and [.catch(...)] of the oldest unsettled write. *)
Definition copy_settled (o : WriteOutcome) (p : Page) : Page :=
  match o with
  | Written =>
      mkPage (setIsCopied true (core p)) (clipboard p) (tail (writing p))
        (S (timers p))
  | WriteFailed detail =>
      mkPage (emit (ConsoleError "Failed to copy transcription:" detail) (core p))
        (clipboard p) (tail (writing p)) (timers p)
  end.

(** The timer callback [() => setIsCopied(false)]. *)
Definition copied_timeout (p : Page) : Page :=
  mkPage (setIsCopied false (core p)) (clipboard p) (writing p) (pred (timers p)).

Inductive PageIntent :=
  | Core (i : Intent)
  | CopyTranscript
  | ClipboardSettled (o : WriteOutcome)
  | CopiedTimeout.

(** Events of the whole page.  The copy button sits beside the edit and
    clear buttons and is rendered for a non-empty transcript only; a write
    settles only if one is unsettled, a timer fires only if one is set. *)
Definition page_react (i : PageIntent) (p : Page) : Page :=
  match i with
  | Core i => on_core (react i) p
  | CopyTranscript =>
      if truthy (transcription (core p)) then copyTranscription p else p
  | ClipboardSettled o =>
      match writing p with
      | [] => p
      | _ :: _ => copy_settled o p
      end
  | CopiedTimeout =>
      match timers p with
      | O => p
      | S _ => copied_timeout p
      end
  end.

Definition page_run (intents : list PageIntent) (p : Page) : Page :=
  fold_left (λ acc i, page_react i acc) intents p.

Definition page_mounted (supported : bool) : Page :=
  mkPage (mount supported initial) [] [] 0.

Inductive page_reachable : Page → Prop :=
  | page_start (supported : bool) : page_reachable (page_mounted supported)
  | page_step (i : PageIntent) (p : Page) :
      page_reachable p → page_reachable (page_react i p).

(** ** The tabbed revision of the page *)

Inductive Tab := TranscriptionTab | SummaryTab.

Record TabbedPage := mkTabbed {
  page : Page;
  activeTab : Tab
}.

Inductive TabbedIntent :=
  | OnPage (i : PageIntent)
  | SelectTab (t : Tab).

(** The controls that live in the transcription panel, or are rendered
    under [activeTab === "transcription"]: copy, edit, clear, the textarea
    and the summarize button.  Start and stop sit above the tabs. *)
Definition in_transcription_panel (i : PageIntent) : bool :=
  match i with
  | CopyTranscript => true
  | Core RequestSummary | Core ClearAll | Core ToggleEdit | Core (EditedText _) => true
  | _ => false
  end.

Definition tab_is_transcription (t : Tab) : bool :=
  match t with
  | TranscriptionTab => true
  | SummaryTab => false
  end.

Definition tabbed_react (i : TabbedIntent) (tp : TabbedPage) : TabbedPage :=
  match i with
  | SelectTab t => mkTabbed (page tp) t
  | OnPage i =>
      if in_transcription_panel i && negb (tab_is_transcription (activeTab tp))
      then tp
      else mkTabbed (page_react i (page tp)) (activeTab tp)
  end.

Definition tabbed_mounted (supported : bool) : TabbedPage :=
  mkTabbed (page_mounted supported) TranscriptionTab.

Inductive tabbed_reachable : TabbedPage → Prop :=
  | tabbed_start (supported : bool) : tabbed_reachable (tabbed_mounted supported)
  | tabbed_step (i : TabbedIntent) (tp : TabbedPage) :
      tabbed_reachable tp → tabbed_reachable (tabbed_react i tp).

(** ** The component against the repository's own route *)

(** The request body reaches the route as the object the component
    serialized, and the route's answer comes back as the response. *)
Definition serve (create : Route.ChatRequest → Route.UpstreamOutcome)
    (req : SummarizerRequest) : FetchOutcome :=
  let out := Route.POST (Route.Json req) create in
  Responded (Route.status (Route.response out))
    (Some (Route.json (Route.response out))).

(** ** Sequences of engine errors, and classes of intents *)



(** No [start()] directly follows another in a call log. *)
Fixpoint no_double_start (l : list EngineCall) : bool :=
  match l with
  | [] => true
  | CallStart :: ((CallStart :: _) as rest) => false
  | _ :: rest => no_double_start rest
  end.

Definition is_restart (i : Intent) : bool :=
  match i with
  | CaptureError ev => String.eqb (error ev) "no-speech"
  | _ => false
  end.

Definition is_recognition (i : Intent) : bool :=
  match i with
  | RecognizedSegment _ => true
  | _ => false
  end.

Definition is_summary_intent (i : Intent) : bool :=
  match i with
  | RequestSummary | SummarySettled _ => true
  | _ => false
  end.

Definition is_fetch (e : Effect) : bool :=
  match e with
  | Fetch _ _ => true
  | _ => false
  end.

(** Nothing recognized, nothing typed, nothing sent. *)
Definition nothing_heard (s : State) : Prop :=
  transcription s = "" ∧ summarizedText s = "" ∧ inflight s = []
  ∧ forallb (λ e, negb (is_fetch e)) (effects s) = true.

(** The engine in the ref has had no two starts in a row and its last
    call is a start exactly when the listening flag is up; the ones let go
    of have had no two starts in a row either. *)
Definition log_alternates (s : State) : Prop :=
  (∀ e, recognition s = Some e →
        no_double_start (calls e) = true ∧ engine_active e = isListening s)
  ∧ Forall (λ e, no_double_start (calls e) = true) (detached s).

Definition is_copy_event (i : PageIntent) : bool :=
  match i with
  | Core _ => false
  | _ => true
  end.

(** Only non-empty texts have gone to the clipboard, and a raised "Copied!"
    flag has a timer left to lower it. *)
Definition copy_sound (p : Page) : Prop :=
  Forall (λ t, t ≠ "") (clipboard p)
  ∧ (isCopied (core p) = true → 0 < timers p).

(** ** The engine as the host runs it *)

(** Line 42 selects continuous mode, in which the results list of every
    result event holds all the results of the session so far: the event for
    the n-th recognized result carries the first n. *)
Definition continuous_session (recognized : list SpeechRecognitionResult)
    : list SpeechRecognitionEvent :=
  map (λ n, mkEvent (take n recognized) "") (seq 1 (length recognized)).

(** The texts newly recognized in a session, one per result. *)
Definition recognized_texts (recognized : list SpeechRecognitionResult) : list string :=
  map (λ r, transcript (best r)) recognized.








(** * Properties *)

(** ** Strings and truthiness *)

Lemma string_app_cons (c : ascii) (s t : string) :
  String c s +:+ t = String c (s +:+ t).
Proof. reflexivity. Qed.

Lemma string_app_nil_r (s : string) : s +:+ "" = s.
Proof. induction s as [|c s IH]; [done | by rewrite string_app_cons, IH]. Qed.

Lemma string_app_assoc (s1 s2 s3 : string) :
  (s1 +:+ s2) +:+ s3 = s1 +:+ (s2 +:+ s3).
Proof.
  induction s1 as [|c s1 IH]; [done | by rewrite !string_app_cons, IH].
Qed.

Lemma truthy_false (s : string) : truthy s = false ↔ s = "".
Proof. destruct s; simpl; split; congruence. Qed.

Lemma truthy_true (s : string) : truthy s = true ↔ s ≠ "".
Proof. destruct s; simpl; split; congruence. Qed.

Lemma concat_empty_cons (x : string) (xs : list string) :
  String.concat "" (x :: xs) = x +:+ String.concat "" xs.
Proof.
  destruct xs as [|y ys]; [|reflexivity].
  simpl. by rewrite string_app_nil_r.
Qed.

Lemma concat_empty_app (l1 l2 : list string) :
  String.concat "" (l1 ++ l2) = String.concat "" l1 +:+ String.concat "" l2.
Proof.
  induction l1 as [|x l1 IH]; [reflexivity|].
  rewrite <- app_comm_cons, !concat_empty_cons, IH.
  by rewrite string_app_assoc.
Qed.

(** ** Accumulation of recognition results *)

Lemma deliver_cons ev evs s :
  deliver (ev :: evs) s = deliver evs (onresult ev s).
Proof. reflexivity. Qed.

Lemma segment_texts_fragments evs :
  String.concat "" (segment_texts evs) = String.concat "" (fragments evs).
Proof.
  unfold segment_texts, fragments.
  induction evs as [|ev evs IH]; [reflexivity|].
  cbn [map concat]. by rewrite concat_empty_cons, concat_empty_app, IH.
Qed.

(** A result list that repeats an earlier fragment contributes it again:
    the handler joins the whole list of every event. *)
Example onresult_joins_whole_list :
  let r t := mkResult (mkAlternative t) [] in
  transcription
    (deliver [mkEvent [r "hello "] ""; mkEvent [r "hello "; r "world"] ""]
       (mount true initial))
  = "hello hello world".
Proof. reflexivity. Qed.

(** What the handler does with the events as they come: the transcript
    after the last one is the transcript before the first followed by the
    joined results lists of the events in delivery order, every entry of
    every list once per event that carries it; delivery does not touch the
    capture state. *)
Lemma deliver_appends_joined_events :
  ∀ (evs : list SpeechRecognitionEvent) (s : State),
    transcription (deliver evs s)
      = transcription s +:+ String.concat "" (segment_texts evs)
    ∧ String.concat "" (segment_texts evs) = String.concat "" (fragments evs)
    ∧ captureState (deliver evs s) = captureState s
    ∧ transcription (deliver evs (setTranscription (λ _, "") s))
      = String.concat "" (segment_texts evs).
Proof.
  assert (Hgen : ∀ evs s,
    transcription (deliver evs s)
      = transcription s +:+ String.concat "" (segment_texts evs)
    ∧ captureState (deliver evs s) = captureState s).
  { induction evs as [|ev evs IH]; intros s.
    - split; [|done]. simpl. by rewrite string_app_nil_r.
    - rewrite deliver_cons. destruct (IH (onresult ev s)) as [Ht Hc].
      rewrite Ht, Hc. split; [|reflexivity].
      unfold segment_texts. cbn [map]. rewrite concat_empty_cons.
      cbn [onresult setTranscription transcription].
      by rewrite string_app_assoc. }
  intros evs s. destruct (Hgen evs s) as [Ht Hc].
  repeat split; [done | apply segment_texts_fragments | done |].
  by destruct (Hgen evs (setTranscription (λ _, "") s)) as [-> _].
Qed.

(** C1, evaluated where it fails.  In a continuous session that recognizes
    "A.", "B." and "C." the three events carry one, two and three results;
    the handler joins the whole list each time, so the transcript ends as
    "A.A.B.A.B.C." and not as the concatenation "A.B.C." of the newly
    recognized texts: the first segment is appended three times. *)
Theorem C1_cumulative_results_repeat :
  let r t := mkResult (mkAlternative t) [] in
  let recognized := [r "A."; r "B."; r "C."] in
  let s := deliver (continuous_session recognized)
             (run [StartCapture] (mount true initial)) in
  map results (continuous_session recognized)
    = [[r "A."]; [r "A."; r "B."]; [r "A."; r "B."; r "C."]]
  ∧ captureState s = Listening
  ∧ String.concat "" (recognized_texts recognized) = "A.B.C."
  ∧ transcription s = "A.A.B.A.B.C."
  ∧ transcription s ≠ String.concat "" (recognized_texts recognized).
Proof. repeat split. discriminate. Qed.

(** ** Settling a summarization request *)

Lemma settle_summarizedText o s :
  summarizedText (settle o s) = settled_text o.
Proof. reflexivity. Qed.

Lemma settle_isLoading o s : isLoading (settle o s) = false.
Proof. reflexivity. Qed.

Lemma settle_transcription o s : transcription (settle o s) = transcription s.
Proof. reflexivity. Qed.

Lemma settle_summaryResult o s :
  success_with_summary o = false →
  summaryResult (settle o s) = Failed (settled_text o).
Proof.
  intros Hfail. unfold summaryResult.
  rewrite settle_isLoading, settle_summarizedText.
  destruct o as [detail|status [[[text|] err]|]]; [reflexivity|..];
    cbn in *; destruct (response_ok status); cbn in *; try reflexivity.
  destruct text; [reflexivity | discriminate].
Qed.

(** C2, the claim as stated fails: a success without a usable summary and
    a non-success status are both failures, and they leave two different
    messages; no single string serves all failure kinds. *)
Lemma C2_two_fallback_strings :
  let s := summarizeTranscription (onChange "We agreed to ship Friday." initial) in
  let no_field := Responded 200 (Some (mkData None None)) in
  let bad_status := Responded 500 (Some (mkData None (Some "upstream timeout"))) in
  success_with_summary no_field = false
  ∧ success_with_summary bad_status = false
  ∧ summaryResult (settle no_field s) = Failed "No summary available."
  ∧ summaryResult (settle bad_status s) = Failed "Failed to summarize transcription."
  ∧ ¬ (∃ msg, ∀ o s', success_with_summary o = false →
                summaryResult (settle o s') = Failed msg).
Proof.
  repeat split; try reflexivity.
  intros [msg Hall].
  pose proof (Hall (Responded 200 (Some (mkData None None))) initial eq_refl) as H1.
  pose proof (Hall (Rejected "") initial eq_refl) as H2.
  rewrite <- H2 in H1. discriminate H1.
Qed.

(** C2, amended.  Every outcome other than a success with a non-empty
    summary ends in [Failed] with a fixed literal: "No summary available."
    when a response with a success status and a readable body carries no
    usable summary, "Failed to summarize transcription." for a non-success
    status, an unreadable body or a rejected fetch.  Neither depends on the
    status, on the error body or on the transport detail, and the loading
    flag is cleared. *)
Theorem C2_failure_messages :
  ∀ (o : FetchOutcome) (s : State),
    success_with_summary o = false →
    summaryResult (settle o s) =
      match o with
      | Responded status (Some _) =>
          if response_ok status
          then Failed "No summary available."
          else Failed "Failed to summarize transcription."
      | Responded _ None | Rejected _ =>
          Failed "Failed to summarize transcription."
      end.
Proof.
  intros o s Hfail. rewrite (settle_summaryResult _ _ Hfail).
  destruct o as [detail|status [[[text|] err]|]]; [reflexivity|..];
    cbn in *; destruct (response_ok status); cbn in *; try reflexivity.
  destruct text; [reflexivity | discriminate].
Qed.

Lemma C2_failure_messages_witness :
  summaryResult
    (settle (Responded 500 (Some (mkData None (Some "upstream timeout"))))
       (summarizeTranscription (onChange "We agreed to ship Friday." initial)))
  = Failed "Failed to summarize transcription.".
Proof.
  apply (C2_failure_messages
           (Responded 500 (Some (mkData None (Some "upstream timeout"))))).
  reflexivity.
Defined.

(** The success case, for comparison: the summary text is shown as is. *)
Lemma settle_success status data text s :
  response_ok status = true → summary data = Some text → text ≠ "" →
  summarizedText (settle (Responded status (Some data)) s) = text.
Proof.
  intros Hok Hsum Hne. rewrite settle_summarizedText. cbn.
  rewrite Hok, Hsum. cbn. by destruct text.
Qed.

(** ** The empty-transcript guard *)

Lemma summarize_nonempty s :
  transcription s ≠ "" →
  inflight (summarizeTranscription s)
    = inflight s ++ [mkRequest (Some (transcription s))]
  ∧ effects (summarizeTranscription s)
    = effects s ++ [Fetch "/api/summarizer" (mkRequest (Some (transcription s)))]
  ∧ isLoading (summarizeTranscription s) = true.
Proof.
  intros Hne. apply truthy_true in Hne. unfold summarizeTranscription.
  by rewrite Hne.
Qed.

(** C3, the claim as stated fails: a transcript of one space is white
    space only (the user has edited the transcript down to it), yet the
    summarize button is live, the request is sent and
    the result becomes [Pending]; no advisory is raised. *)
Lemma C3_whitespace_is_sent :
  let heard := mkEvent [mkResult (mkAlternative "um") []] "" in
  let s := run [StartCapture; RecognizedSegment heard; ToggleEdit; EditedText " "]
             (mount true initial) in
  whitespace_only (transcription s) = true
  ∧ react RequestSummary s = summarizeTranscription s
  ∧ inflight (summarizeTranscription s) = [mkRequest (Some " ")]
  ∧ effects (summarizeTranscription s)
    = [Fetch "/api/summarizer" (mkRequest (Some " "))]
  ∧ summaryResult s = Empty
  ∧ summaryResult (summarizeTranscription s) = Pending.
Proof. repeat split. Qed.

(** C3, amended.  On the empty transcript [summarizeTranscription] only
    raises the advisory "No transcription available to summarize.": no
    request is sent or left outstanding and the summary result is
    unchanged.  Any other transcript, white space only or not, is sent: the
    request carries it whole and the result becomes [Pending]. *)
Theorem C3_empty_transcript :
  (∀ s : State,
     transcription s = "" →
     summarizeTranscription s
       = emit (Alert "No transcription available to summarize.") s
     ∧ inflight (summarizeTranscription s) = inflight s
     ∧ (∀ url body, Fetch url body ∈ effects (summarizeTranscription s) →
                    Fetch url body ∈ effects s)
     ∧ summaryResult (summarizeTranscription s) = summaryResult s)
  ∧ (∀ s : State,
       transcription s ≠ "" →
       inflight (summarizeTranscription s)
         = inflight s ++ [mkRequest (Some (transcription s))]
       ∧ effects (summarizeTranscription s)
         = effects s
           ++ [Fetch "/api/summarizer" (mkRequest (Some (transcription s)))]
       ∧ summaryResult (summarizeTranscription s) = Pending).
Proof.
  split.
  - intros s Hempty. apply truthy_false in Hempty.
    unfold summarizeTranscription. rewrite Hempty.
    repeat split; try reflexivity.
    intros url body Hin. cbn in Hin.
    apply elem_of_app in Hin as [Hin|Hin]; [done|].
    apply list_elem_of_singleton in Hin. discriminate Hin.
  - intros s Hne. destruct (summarize_nonempty s Hne) as (Hin & Heff & Hload).
    repeat split; [done | done |]. unfold summaryResult. by rewrite Hload.
Qed.

Lemma C3_empty_transcript_witness :
  (summarizeTranscription (mount true initial)
     = emit (Alert "No transcription available to summarize.") (mount true initial)
   ∧ inflight (summarizeTranscription (mount true initial)) = []
   ∧ summaryResult (summarizeTranscription (mount true initial)) = Empty)
  ∧ inflight (summarizeTranscription (onChange " " (mount true initial)))
    = [mkRequest (Some " ")].
Proof.
  destruct C3_empty_transcript as [Hempty Hsent]. split.
  - destruct (Hempty (mount true initial) eq_refl) as (H1 & H2 & _ & H4).
    exact (conj H1 (conj H2 H4)).
  - by destruct (Hsent (onChange " " (mount true initial))) as (H1 & _).
Defined.

(** ** Clicks *)

Lemma react_start s :
  react StartCapture s = if negb (isListening s) then startListening s else s.
Proof. reflexivity. Qed.

Lemma react_stop s :
  react StopCapture s = if isListening s then stopListening s else s.
Proof. unfold react, click. cbn. by rewrite negb_involutive. Qed.

Lemma react_summarize s :
  react RequestSummary s =
  if truthy (transcription s) && negb (isLoading s)
  then summarizeTranscription s else s.
Proof. reflexivity. Qed.

Lemma react_clear s :
  react ClearAll s = if truthy (transcription s) then clearTranscription s else s.
Proof. unfold react, click. cbn. by rewrite andb_true_r. Qed.

Lemma react_edit s :
  react ToggleEdit s = if truthy (transcription s) then toggleEditing s else s.
Proof. unfold react, click. cbn. by rewrite andb_true_r. Qed.

(** ** The loading flag *)

(** C10.  However an issued request settles, the loading flag is false
    afterwards: the summary result is not [Pending], the summarize button is
    enabled again, and with a transcript to send a further click issues a
    new request. *)
Theorem C10_loading_reset :
  ∀ (o : FetchOutcome) (s : State),
    isLoading (settle o s) = false
    ∧ summaryResult (settle o s) ≠ Pending
    ∧ disabled (summarizeButton (settle o s)) = false
    ∧ (transcription s ≠ "" →
       react RequestSummary (settle o s) = summarizeTranscription (settle o s)
       ∧ inflight (react RequestSummary (settle o s))
         = tail (inflight s) ++ [mkRequest (Some (transcription s))]
       ∧ summaryResult (react RequestSummary (settle o s)) = Pending).
Proof.
  intros o s.
  assert (Hclick : transcription s ≠ "" →
            react RequestSummary (settle o s) = summarizeTranscription (settle o s)).
  { intros Hne. apply truthy_true in Hne.
    by rewrite react_summarize, settle_isLoading, settle_transcription, Hne. }
  split; [apply settle_isLoading|].
  split; [unfold summaryResult; rewrite settle_isLoading; by repeat case_match|].
  split; [apply settle_isLoading|].
  intros Hne. rewrite (Hclick Hne).
  destruct (summarize_nonempty (settle o s)) as (Hin & _ & Hload);
    [by rewrite settle_transcription|].
  split; [reflexivity|]. split.
  - by rewrite Hin, settle_transcription.
  - unfold summaryResult. by rewrite Hload.
Qed.

Lemma C10_loading_reset_witness :
  let s := summarizeTranscription (onChange "notes" (mount true initial)) in
  let o := Rejected "connection reset" in
  isLoading s = true
  ∧ isLoading (settle o s) = false
  ∧ inflight (react RequestSummary (settle o s)) = [mkRequest (Some "notes")].
Proof.
  intros s o.
  destruct (C10_loading_reset o s) as (H1 & _ & _ & H4).
  split; [reflexivity|]. split; [exact H1|].
  destruct H4 as (_ & H5 & _); [discriminate|]. exact H5.
Defined.

(** ** Clearing *)

(** C6, the claim as stated fails: clearing in edit mode while a request
    is outstanding leaves edit mode on and the result [Pending]. *)
Lemma C6_clear_keeps_edit_mode :
  let heard := mkEvent [mkResult (mkAlternative "budget review") []] "" in
  let s := run [StartCapture; RecognizedSegment heard; ToggleEdit; RequestSummary]
             (mount true initial) in
  isEditing s = true
  ∧ summaryResult s = Pending
  ∧ react ClearAll s = clearTranscription s
  ∧ isEditing (clearTranscription s) = true
  ∧ summaryResult (clearTranscription s) = Pending.
Proof. repeat split. Qed.

(** C6, amended.  From any state [clearTranscription] leaves the transcript
    and the summary text empty, so the summary result is [Empty] unless a
    request is outstanding, in which case it stays [Pending]; edit mode,
    capture and the outstanding request are left as they were. *)
Theorem C6_clear :
  ∀ s : State,
    transcription (clearTranscription s) = ""
    ∧ summarizedText (clearTranscription s) = ""
    ∧ summaryResult (clearTranscription s)
      = (if isLoading s then Pending else Empty)
    ∧ isEditing (clearTranscription s) = isEditing s
    ∧ captureState (clearTranscription s) = captureState s
    ∧ inflight (clearTranscription s) = inflight s.
Proof.
  intros s. repeat split.
Qed.

(** ** Invariants of the page *)

Lemma single_flight_react i s : single_flight s → single_flight (react i s).
Proof.
  unfold single_flight. intros Hinv. destruct i.
  - rewrite react_start. destruct (negb _); [|done].
    unfold startListening. by destruct (recognition s).
  - rewrite react_stop. destruct (isListening s); [|done].
    unfold stopListening. by destruct (recognition s).
  - done.
  - cbn [react]. unfold onerror. by case_match.
  - rewrite react_summarize.
    destruct (truthy (transcription s)) eqn:Ht; [|done].
    destruct (isLoading s) eqn:Hl; cbn [andb negb]; [by rewrite Hl|].
    apply truthy_true in Ht.
    destruct (summarize_nonempty s Ht) as (Hin & _ & Hload).
    left. rewrite Hload, Hin.
    by destruct Hinv as [[? _]|[_ ->]].
  - cbn [react]. destruct (inflight s) as [|r rest] eqn:Hinf;
      [by rewrite Hinf|].
    right. split; [done|]. cbn. rewrite Hinf.
    destruct Hinv as [[_ Hlen]|[_ ?]]; [|done].
    by destruct rest.
  - rewrite react_clear. by destruct (truthy _).
  - rewrite react_edit. by destruct (truthy _).
  - cbn [react]. by destruct (textarea_rendered s).
  - done.
Qed.

Lemma unacquired_idle_react i s : unacquired_idle s → unacquired_idle (react i s).
Proof.
  unfold unacquired_idle.
  destruct s as [t st li lo ed cp rec det inf eff]; cbn. intros Hinv.
  destruct i;
    cbv [react click startButton stopButton summarizeButton clearButton
         editButton textarea_rendered rendered disabled onClick
         startListening stopListening summarizeTranscription onerror cleanup
         call_engine];
    cbn; repeat (case_match; cbn in *); simplify_eq; cbn in *;
    rewrite ?app_nil_r; intros; simplify_eq; auto.
  all: destruct rec; cbn in *; simplify_eq; auto.
  all: match goal with H : _ ++ _ = [] |- _ => apply app_nil in H as [? ?] end.
  all: by auto.
Qed.

Lemma ui_reachable_invariants s :
  ui_reachable s → single_flight s ∧ unacquired_idle s.
Proof.
  induction 1 as [supported|i s _ [IH1 IH2]].
  - split; [by right; destruct supported|].
    destruct supported; [discriminate 1|done].
  - split; [by apply single_flight_react | by apply unacquired_idle_react].
Qed.

Lemma run_reachable intents s : ui_reachable s → ui_reachable (run intents s).
Proof.
  revert s. induction intents as [|i intents IH]; intros s Hs; [done|].
  apply IH. by constructor.
Qed.

(** The handler has no guard of its own: called directly while a request
    is outstanding it sends a second one.  The guard is the button. *)
Example summarizeTranscription_unguarded :
  let s := summarizeTranscription (onChange "notes" (mount true initial)) in
  isLoading s = true
  ∧ length (inflight (summarizeTranscription s)) = 2
  ∧ react RequestSummary s = s.
Proof. repeat split. Qed.

(** C4, the claim as stated fails: [summarizeTranscription] called while
    the summary result is [Pending] is not turned away.  It raises nothing,
    sends a second request and leaves two outstanding. *)
Lemma C4_second_request_is_sent :
  let heard := mkEvent [mkResult (mkAlternative "ship Friday") []] "" in
  let s := run [StartCapture; RecognizedSegment heard; RequestSummary]
             (mount true initial) in
  summaryResult s = Pending
  ∧ inflight s = [mkRequest (Some "ship Friday")]
  ∧ inflight (summarizeTranscription s)
    = [mkRequest (Some "ship Friday"); mkRequest (Some "ship Friday")]
  ∧ effects (summarizeTranscription s)
    = effects s ++ [Fetch "/api/summarizer" (mkRequest (Some "ship Friday"))]
  ∧ ¬ (∀ s', summaryResult s' = Pending →
             inflight (summarizeTranscription s') = inflight s').
Proof.
  repeat split. intros Hall.
  specialize (Hall (run [StartCapture;
                         RecognizedSegment
                           (mkEvent [mkResult (mkAlternative "ship Friday") []] "");
                         RequestSummary] (mount true initial)) eq_refl).
  discriminate Hall.
Qed.

(** C4, amended.  On the page at most one request is ever outstanding, and while
    the summary result is [Pending] a further summary request is turned
    away: the state is exactly what it was (nothing is sent, the one
    outstanding request stays the only one), so the outstanding request
    settles as it would have without the attempt. *)
Theorem C4_single_flight :
  ∀ s : State,
    ui_reachable s →
    length (inflight s) ≤ 1
    ∧ (summaryResult s = Pending →
       disabled (summarizeButton s) = true
       ∧ react RequestSummary s = s
       ∧ length (inflight (react RequestSummary s)) = 1
       ∧ ∀ o, react (SummarySettled o) (react RequestSummary s)
              = react (SummarySettled o) s).
Proof.
  intros s Hreach. destruct (ui_reachable_invariants s Hreach) as [Hsf _].
  split.
  - destruct Hsf as [[_ ->]|[_ ->]]; cbn; lia.
  - intros Hpending.
    assert (isLoading s = true) as Hload.
    { unfold summaryResult in Hpending. by repeat case_match. }
    assert (react RequestSummary s = s) as Hsame.
    { rewrite react_summarize, Hload. by rewrite andb_false_r. }
    rewrite !Hsame. repeat split; [done|].
    destruct Hsf as [[_ Hlen]|[Hno _]]; [done | congruence].
Qed.

Lemma C4_single_flight_witness :
  let heard := mkEvent [mkResult (mkAlternative "ship Friday") []] "" in
  let s := run [StartCapture; RecognizedSegment heard; RequestSummary]
             (mount true initial) in
  summaryResult s = Pending
  ∧ length (inflight s) ≤ 1
  ∧ react RequestSummary s = s
  ∧ react (SummarySettled (Rejected "offline")) (react RequestSummary s)
    = react (SummarySettled (Rejected "offline")) s.
Proof.
  intros heard s.
  destruct (C4_single_flight s) as (Hone & Hpending).
  { apply run_reachable. apply (ui_mounted true). }
  destruct Hpending as (_ & Hsame & _ & Hsettle); [reflexivity|].
  exact (conj eq_refl (conj Hone (conj Hsame (Hsettle _)))).
Defined.

(** ** Redundant start and stop *)

(** Called directly, the handlers re-issue the engine call and set the
    flag to the value it has: capture state, transcript, summary result and
    the effect trace stay as they are. *)
Lemma startListening_when_listening s :
  captureState s = Listening →
  captureState (startListening s) = Listening
  ∧ transcription (startListening s) = transcription s
  ∧ summaryResult (startListening s) = summaryResult s
  ∧ effects (startListening s) = effects s
  ∧ recognition (startListening s) = receive CallStart <$> recognition s.
Proof.
  unfold captureState, startListening.
  destruct (recognition s) as [e|] eqn:Hr; [|by destruct (detached s)].
  destruct (isListening s) eqn:Hl; [|done]. intros _.
  unfold call_engine. rewrite Hr. by cbn.
Qed.

(** C9, the claim as stated fails: the redundant start (while Listening)
    and the redundant stop (while Idle) change nothing, the effect trace
    included; no advisory is raised for either, on the page or by the
    handler itself. *)
Lemma C9_no_advisory :
  let listening := run [StartCapture] (mount true initial) in
  let idle := mount true initial in
  captureState listening = Listening
  ∧ captureState idle = Idle
  ∧ effects (react StartCapture listening) = []
  ∧ effects (startListening listening) = []
  ∧ effects (react StopCapture idle) = []
  ∧ effects (stopListening idle) = []
  ∧ ¬ (∀ s, ui_reachable s → captureState s = Listening →
            ∃ msg, effects (react StartCapture s) = effects s ++ [Alert msg]).
Proof.
  repeat split. intros Hall.
  destruct (Hall (run [StartCapture] (mount true initial))) as [msg Hmsg];
    [apply run_reachable; constructor | reflexivity | discriminate Hmsg].
Qed.

(** C9, amended.  On the page, a start while Listening and a stop while
    Idle find their button disabled and change nothing at all: capture
    state, transcript, summary result, engine and effect trace are what
    they were, so nothing is surfaced, neither an advisory nor an error. *)
Theorem C9_redundant_start_stop :
  ∀ s : State,
    ui_reachable s →
    (captureState s = Listening →
       disabled (startButton s) = true ∧ react StartCapture s = s)
    ∧ (captureState s = Idle →
       disabled (stopButton s) = true ∧ react StopCapture s = s).
Proof.
  intros s Hreach. destruct (ui_reachable_invariants s Hreach) as [_ Hidle].
  split; intros Hstate.
  - assert (isListening s = true) as Hl.
    { unfold captureState in Hstate. by repeat case_match. }
    split; [exact Hl|]. by rewrite react_start, Hl.
  - assert (isListening s = false) as Hl.
    { unfold captureState in Hstate. unfold unacquired_idle in Hidle.
      repeat case_match; simplify_eq; auto. }
    split; [by cbn; rewrite Hl|]. by rewrite react_stop, Hl.
Qed.

Lemma C9_redundant_start_stop_witness :
  react StartCapture (run [StartCapture] (mount true initial))
    = run [StartCapture] (mount true initial)
  ∧ react StopCapture (mount true initial) = mount true initial.
Proof.
  split.
  - apply (C9_redundant_start_stop (run [StartCapture] (mount true initial)));
      [apply run_reachable; constructor | reflexivity].
  - apply (C9_redundant_start_stop (mount true initial));
      [constructor | reflexivity].
Defined.

(** ** Capture errors *)

Lemma engine_active_receive c e :
  engine_active (receive c e) = match c with CallStart => true | CallStop => false end.
Proof. unfold engine_active, receive. cbn. rewrite last_snoc. by destruct c. Qed.

(** C5.  While Listening, a "no-speech" error makes the handler call
    [start()] once more on the engine the ref holds: the ref still holds
    that engine, with one more start in its log and its configuration as it
    was; the capture state is still Listening, the engine is capturing and
    the transcript is untouched. *)
Theorem C5_no_speech_restart :
  ∀ (s : State) (ev : SpeechRecognitionEvent),
    captureState s = Listening →
    error ev = "no-speech" →
    ∃ engine : SpeechRecognition,
      recognition s = Some engine
      ∧ recognition (onerror ev s)
        = Some (mkEngine (continuous engine) (interimResults engine)
                  (calls engine ++ [CallStart]))
      ∧ detached (onerror ev s) = detached s
      ∧ captureState (onerror ev s) = Listening
      ∧ engine_running (onerror ev s) = true
      ∧ transcription (onerror ev s) = transcription s.
Proof.
  intros s ev Hstate Herr. unfold captureState in Hstate.
  destruct (recognition s) as [engine|] eqn:Hr; [|by destruct (detached s)].
  destruct (isListening s) eqn:Hl; [|done].
  exists engine. unfold onerror. rewrite Herr, String.eqb_refl.
  unfold call_engine, captureState, engine_running. cbn. rewrite Hr, Hl. cbn.
  repeat split.
  change (mkEngine _ _ _) with (receive CallStart engine).
  by rewrite engine_active_receive.
Qed.

Lemma C5_no_speech_restart_witness :
  let heard := mkEvent [mkResult (mkAlternative "agenda item one") []] "" in
  let s := run [StartCapture; RecognizedSegment heard] (mount true initial) in
  let s' := onerror (mkEvent [] "no-speech") s in
  captureState s' = Listening
  ∧ transcription s' = "agenda item one"
  ∧ recognition s' = Some (mkEngine true false [CallStart; CallStart]).
Proof.
  intros heard s s'.
  destruct (C5_no_speech_restart s (mkEvent [] "no-speech") eq_refl eq_refl)
    as (engine & Hr & Hr' & _ & Hc & _ & Ht).
  injection Hr as <-.
  exact (conj Hc (conj Ht Hr')).
Defined.

(** ** Engine activity and capture state *)

Lemma existsb_inactive (l : list SpeechRecognition) :
  Forall (λ e, engine_active e = false) l → existsb engine_active l = false.
Proof. induction 1 as [|e l He _ IH]; [done|]. cbn. by rewrite He, IH. Qed.


(** ** The route handler *)

(** C8.  A parsed body whose [meetingText] is missing or empty is answered
    with status 400 and the fixed error text, without any upstream call; a
    body with text whose upstream call throws is answered with status 500
    and an error string, the thrown error's message or the default text. *)
Theorem C8_route_errors :
  (∀ (r : SummarizerRequest) (create : Route.ChatRequest → Route.UpstreamOutcome),
     meetingText r = None ∨ meetingText r = Some "" →
     Route.response (Route.POST (Route.Json r) create)
       = Route.mkResponse 400
           (mkData None (Some "Meeting text is required in the request body."))
     ∧ Route.upstream_calls (Route.POST (Route.Json r) create) = [])
  ∧ (∀ (r : SummarizerRequest) (create : Route.ChatRequest → Route.UpstreamOutcome)
       (text : string) (t : Route.Thrown),
     meetingText r = Some text → text ≠ "" →
     create (Route.chat_request text) = Route.Threw t →
     Route.status (Route.response (Route.POST (Route.Json r) create)) = 500
     ∧ ∃ e : string,
         Route.json (Route.response (Route.POST (Route.Json r) create))
           = mkData None (Some e)
         ∧ (∀ m, t = Route.ThrownError m → e = m)).
Proof.
  split.
  - intros r create [Hnone|Hempty]; unfold Route.POST.
    + by rewrite Hnone.
    + by rewrite Hempty.
  - intros r create text t Htext Hne Hthrow. unfold Route.POST.
    apply truthy_true in Hne. rewrite Htext, Hne, Hthrow.
    split; [reflexivity|].
    destruct t as [m|]; eexists; (split; [reflexivity|]); intros m' Hm; congruence.
Qed.

Lemma C8_route_errors_witness :
  let failing := λ _ : Route.ChatRequest,
                   Route.Threw (Route.ThrownError "upstream timeout") in
  Route.response (Route.POST (Route.Json (mkRequest (Some ""))) failing)
    = Route.mkResponse 400
        (mkData None (Some "Meeting text is required in the request body."))
  ∧ Route.status
      (Route.response (Route.POST (Route.Json (mkRequest (Some "notes"))) failing))
    = 500.
Proof.
  intros failing. destruct C8_route_errors as [Hbad Hfail]. split.
  - apply (Hbad (mkRequest (Some "")) failing). by right.
  - apply (Hfail (mkRequest (Some "notes")) failing "notes"
             (Route.ThrownError "upstream timeout"));
      [reflexivity | discriminate | reflexivity].
Defined.

(** * Further properties of the code *)

(** ** The route: shape of every answer *)

Lemma or_default_nonempty v d : d ≠ "" → or_default v d ≠ "".
Proof.
  intros Hd. unfold or_default. destruct v as [s|]; [|done].
  destruct (truthy s) eqn:Hs; [by apply truthy_true|done].
Qed.

Lemma completion_text_nonempty choices : Route.completion_text choices ≠ "".
Proof. by apply or_default_nonempty. Qed.

(** X1.  Whatever the request body and whatever the upstream does, the
    route answers in one of three shapes: 200 with a non-empty summary and
    no error field, 400 with the fixed text, or 500 with an error string; in
    the last two there is no summary field.  It calls the upstream at most
    once. *)
Theorem route_response_shape :
  ∀ (request : Route.RequestJson)
    (create : Route.ChatRequest → Route.UpstreamOutcome),
    let out := Route.POST request create in
    ((Route.status (Route.response out) = 200
      ∧ ∃ text, text ≠ ""
          ∧ Route.json (Route.response out) = mkData (Some text) None)
     ∨ (Route.status (Route.response out) = 400
        ∧ Route.json (Route.response out)
          = mkData None (Some "Meeting text is required in the request body."))
     ∨ (Route.status (Route.response out) = 500
        ∧ ∃ e, Route.json (Route.response out) = mkData None (Some e)))
    ∧ length (Route.upstream_calls out) ≤ 1.
Proof.
  intros request create. cbn zeta. unfold Route.POST.
  destruct request as [t|r]; [split; [right; right|]; cbn; eauto|].
  destruct (meetingText r) as [text|]; [|split; [right; left|]; cbn; eauto].
  destruct (truthy text); [|split; [right; left|]; cbn; eauto].
  destruct (create _) as [choices|t]; cbn.
  - split; [left|lia]. split; [done|].
    eexists. split; [apply completion_text_nonempty|done].
  - split; [right; right; eauto|lia].
Qed.

(** X2.  With a non-empty [meetingText] and an upstream that completes,
    the answer is 200 and its summary is the content of the first choice
    when that is a non-empty string, and "No summary generated." when there
    is no choice, no message, no content or an empty content; nothing is
    logged. *)
Theorem route_success :
  ∀ (r : SummarizerRequest) (create : Route.ChatRequest → Route.UpstreamOutcome)
    (text : string) (choices : list Route.Choice),
    meetingText r = Some text → text ≠ "" →
    create (Route.chat_request text) = Route.Completed choices →
    let out := Route.POST (Route.Json r) create in
    let first := c ← head choices; m ← Route.message c; Route.completion_content m in
    Route.status (Route.response out) = 200
    ∧ Route.console out = []
    ∧ (∀ content, first = Some content → content ≠ "" →
         Route.json (Route.response out) = mkData (Some content) None)
    ∧ (first = None ∨ first = Some "" →
         Route.json (Route.response out)
           = mkData (Some "No summary generated.") None).
Proof.
  intros r create text choices Htext Hne Hdone. cbn zeta. unfold Route.POST.
  apply truthy_true in Hne. rewrite Htext, Hne, Hdone. cbn.
  unfold Route.completion_text.
  repeat split.
  - intros content -> Hc. apply truthy_true in Hc. cbn. by rewrite Hc.
  - by intros [->| ->].
Qed.

Lemma route_success_witness :
  let create := λ _ : Route.ChatRequest,
    Route.Completed
      [Route.mkChoice (Some (Route.mkCompletionMessage (Some "## Key Points")))] in
  Route.response (Route.POST (Route.Json (mkRequest (Some "notes"))) create)
  = Route.mkResponse 200 (mkData (Some "## Key Points") None).
Proof.
  intros create.
  destruct (route_success (mkRequest (Some "notes")) create "notes"
              [Route.mkChoice (Some (Route.mkCompletionMessage (Some "## Key Points")))])
    as (Hs & _ & Hc & _); [reflexivity | discriminate | reflexivity |].
  specialize (Hc "## Key Points" eq_refl).
  destruct (Route.response _) as [st js]. cbn in *.
  rewrite Hs, Hc; [reflexivity | discriminate].
Defined.

(** X3.  The upstream is called exactly when the body parses and carries a
    non-empty [meetingText]; it is then called once, with the model
    "gemini-2.0-flash", a system message and a user message that wraps the
    text, unchanged, in the fixed sentence. *)
Theorem route_upstream_call :
  ∀ (request : Route.RequestJson)
    (create : Route.ChatRequest → Route.UpstreamOutcome),
    let sent := Route.upstream_calls (Route.POST request create) in
    (sent ≠ [] ↔
       ∃ r text, request = Route.Json r ∧ meetingText r = Some text ∧ text ≠ "")
    ∧ ∀ req, req ∈ sent →
        sent = [req]
        ∧ Route.model req = "gemini-2.0-flash"
        ∧ ∃ text,
            request = Route.Json (mkRequest (Some text))
            ∧ map Route.role (Route.messages req) = [Route.system; Route.user]
            ∧ Route.content <$> last (Route.messages req)
              = Some ("Here is the meeting text for you to summarize: " +:+ text
                      +:+ ". Please provide a summary following the structure outlined above.").
Proof.
  intros request create. cbn zeta. unfold Route.POST.
  destruct request as [t|[[text|]]]; cbn.
  - split; [split; [done | by intros (? & ? & ? & _)] | by intros ? ?%elem_of_nil].
  - destruct (truthy text) eqn:Ht.
    + assert (Route.upstream_calls
                match create (Route.chat_request text) with
                | Route.Completed choices =>
                    Route.mkOutcome
                      (Route.mkResponse 200
                         (mkData (Some (Route.completion_text choices)) None))
                      [Route.chat_request text] []
                | Route.Threw t => Route.caught t [Route.chat_request text]
                end = [Route.chat_request text]) as ->.
      { by destruct (create _). }
      split.
      * split; [|done]. intros _. exists (mkRequest (Some text)), text.
        by apply truthy_true in Ht.
      * intros req ->%list_elem_of_singleton. repeat split.
        exists text. by repeat split.
    + split; [split; [done|] | by intros ? ?%elem_of_nil].
      intros (r & text' & [= <-] & [= <-] & Hne). cbn in *.
      by apply truthy_true in Hne; congruence.
  - split; [split; [done|] | by intros ? ?%elem_of_nil].
    by intros (r & text' & [= <-] & Hm & _).
Qed.

Lemma route_upstream_call_witness :
  let create := λ _ : Route.ChatRequest, Route.Threw Route.ThrownOther in
  let sent := Route.upstream_calls
                (Route.POST (Route.Json (mkRequest (Some "notes"))) create) in
  sent = [Route.chat_request "notes"]
  ∧ Route.model (Route.chat_request "notes") = "gemini-2.0-flash".
Proof.
  intros create sent.
  destruct (route_upstream_call (Route.Json (mkRequest (Some "notes"))) create)
    as [_ Hsent].
  destruct (Hsent (Route.chat_request "notes")) as (Heq & Hmodel & _).
  - apply list_elem_of_singleton. reflexivity.
  - exact (conj Heq Hmodel).
Defined.

(** ** The component served by the route *)

(** X4.  When the request that [summarizeTranscription] sends is answered
    by the route, the summary shown is the upstream's text (or "No summary
    generated." when the upstream gives none) if the upstream completes, and
    "Failed to summarize transcription." if it throws, whatever it throws:
    the route never answers 400 to the component, the thrown message never
    reaches the summary, and the loading flag ends cleared. *)
Theorem served_summary :
  ∀ (s : State) (create : Route.ChatRequest → Route.UpstreamOutcome),
    transcription s ≠ "" →
    let req := mkRequest (Some (transcription s)) in
    let s' := settle (serve create req) (summarizeTranscription s) in
    last (inflight (summarizeTranscription s)) = Some req
    ∧ summarizedText s'
      = match create (Route.chat_request (transcription s)) with
        | Route.Completed choices => Route.completion_text choices
        | Route.Threw _ => "Failed to summarize transcription."
        end
    ∧ isLoading s' = false
    ∧ (∀ body, serve create req ≠ Responded 400 body).
Proof.
  intros s create Hne. cbn zeta.
  destruct (summarize_nonempty s Hne) as (Hin & _ & _).
  split; [by rewrite Hin, last_snoc|].
  rewrite settle_summarizedText, settle_isLoading.
  pose proof Hne as Ht. apply truthy_true in Ht.
  unfold serve, Route.POST. cbn [meetingText]. rewrite Ht.
  destruct (create _) as [choices|t]; cbn.
  - repeat split; [|discriminate].
    pose proof (completion_text_nonempty choices) as Hc.
    apply truthy_true in Hc. by rewrite Hc.
  - repeat split. discriminate.
Qed.

Lemma served_summary_witness :
  let s := onChange "We agreed to ship Friday." (mount true initial) in
  let create := λ _ : Route.ChatRequest,
                  Route.Threw (Route.ThrownError "upstream timeout") in
  summarizedText
    (settle (serve create (mkRequest (Some "We agreed to ship Friday.")))
       (summarizeTranscription s))
  = "Failed to summarize transcription.".
Proof.
  intros s create.
  destruct (served_summary s create) as (_ & Htext & _); [discriminate|].
  exact Htext.
Defined.

(** X5.  A response with a success status whose body carries a non-empty
    summary is shown as it is: the summary text becomes that string, the
    loading flag is cleared, the oldest outstanding request is gone, and the
    transcript is not touched. *)
Theorem settle_success_shows_summary :
  ∀ (status : nat) (data : SummarizerData) (text : string) (s : State),
    response_ok status = true → summary data = Some text → text ≠ "" →
    let s' := settle (Responded status (Some data)) s in
    summarizedText s' = text
    ∧ isLoading s' = false
    ∧ inflight s' = tail (inflight s)
    ∧ transcription s' = transcription s
    ∧ effects s' = effects s.
Proof.
  intros status data text s Hok Hsum Hne. cbn zeta.
  split; [by apply settle_success|].
  repeat split. unfold settle. cbn. rewrite Hok. cbn. by rewrite app_nil_r.
Qed.

Lemma settle_success_shows_summary_witness :
  let s := summarizeTranscription (onChange "We agreed to ship Friday." initial) in
  summarizedText (settle (Responded 200 (Some (mkData (Some "## Key Points") None))) s)
  = "## Key Points".
Proof.
  intros s.
  destruct (settle_success_shows_summary 200 (mkData (Some "## Key Points") None)
              "## Key Points" s) as [Htext _];
    [reflexivity | reflexivity | discriminate |].
  exact Htext.
Defined.

(** ** Runs of the page *)

Ltac unfold_page :=
  cbv [react click startButton stopButton summarizeButton clearButton
       editButton textarea_rendered rendered disabled onClick
       startListening stopListening summarizeTranscription onerror onresult
       onChange cleanup call_engine clearTranscription toggleEditing settle].

Lemma run_cons i intents s : run (i :: intents) s = run intents (react i s).
Proof. reflexivity. Qed.

(** An invariant kept by every intent of a class is kept by a run. *)
Lemma run_invariant (P : State → Prop) (allowed : Intent → bool) :
  (∀ i s, allowed i = true → P s → P (react i s)) →
  ∀ intents s, forallb allowed intents = true → P s → P (run intents s).
Proof.
  intros Hstep. induction intents as [|i intents IH]; intros s Hall Hs; [done|].
  cbn in Hall. apply andb_prop in Hall as [Hi Hall].
  rewrite run_cons. apply IH; [done|]. by apply Hstep.
Qed.

Lemma nothing_heard_react i s :
  negb (is_recognition i) = true → nothing_heard s → nothing_heard (react i s).
Proof.
  unfold nothing_heard.
  destruct s as [t st li lo ed cp rec det inf eff]; cbn.
  intros Hi (-> & -> & -> & Heff).
  destruct i; try discriminate Hi; unfold_page; cbn;
    repeat (case_match; cbn); rewrite ?forallb_app, ?Heff; done.
Qed.

(** X6.  As long as the engine recognizes nothing, nothing can be typed
    either: from the mounted page, any events other than recognition
    results leave the transcript and the summary empty, and no request is
    ever sent.  (The textarea and the summarize button exist only for a
    non-empty transcript.) *)
Theorem transcript_needs_recognition :
  ∀ (supported : bool) (intents : list Intent),
    forallb (λ i, negb (is_recognition i)) intents = true →
    let s := run intents (mount supported initial) in
    transcription s = ""
    ∧ summarizedText s = ""
    ∧ inflight s = []
    ∧ ∀ url body, Fetch url body ∉ effects s.
Proof.
  intros supported intents Hquiet. cbn zeta.
  assert (nothing_heard (run intents (mount supported initial)))
    as (Ht & Hs & Hi & Heff).
  { apply (run_invariant nothing_heard (λ i, negb (is_recognition i)));
      [apply nothing_heard_react | done | by destruct supported]. }
  repeat split; [done..|].
  intros url body Hin. apply list_elem_of_In in Hin.
  rewrite forallb_forall in Heff. by specialize (Heff _ Hin).
Qed.

Lemma transcript_needs_recognition_witness :
  let s := run [StartCapture; EditedText "typed"; ToggleEdit; EditedText "typed";
                RequestSummary; StopCapture] (mount true initial) in
  transcription s = "" ∧ inflight s = [].
Proof.
  intros s.
  destruct (transcript_needs_recognition true
              [StartCapture; EditedText "typed"; ToggleEdit; EditedText "typed";
               RequestSummary; StopCapture] eq_refl) as (Ht & _ & Hi & _).
  exact (conj Ht Hi).
Defined.

(** Once the ref is null no event brings an engine back, and the listening
    flag is frozen. *)
Lemma null_ref_react i s :
  recognition s = None →
  recognition (react i s) = None
  ∧ detached (react i s) = detached s
  ∧ isListening (react i s) = isListening s.
Proof.
  destruct s as [t st li lo ed cp rec det inf eff]; cbn. intros ->.
  destruct i; unfold_page; cbn; repeat (case_match; cbn);
    rewrite ?app_nil_r; done.
Qed.

Lemma null_ref_run intents s :
  recognition s = None →
  recognition (run intents s) = None
  ∧ detached (run intents s) = detached s
  ∧ isListening (run intents s) = isListening s.
Proof.
  revert s. induction intents as [|i intents IH]; intros s Hnull; [done|].
  rewrite run_cons. destruct (null_ref_react i s Hnull) as (Hr & Hd & Hl).
  destruct (IH _ Hr) as (Hr' & Hd' & Hl'). by rewrite Hr', Hd', Hl', Hd, Hl.
Qed.

(** X7.  In a browser without speech recognition the mount effect only
    raises its alert, and from then on no event of any kind starts a
    capture: there is never an engine, the listening flag stays down, the
    capture state stays Idle, and a click on Start only raises "Speech
    recognition is not initialized properly.". *)
Theorem unsupported_browser_never_listens :
  ∀ intents : list Intent,
    let s := run intents (mount false initial) in
    recognition s = None
    ∧ detached s = []
    ∧ isListening s = false
    ∧ captureState s = Idle
    ∧ engine_running s = false
    ∧ head (effects s)
      = Some (Alert "Speech Recognition is not supported in this browser.")
    ∧ react StartCapture s
      = emit (Alert "Speech recognition is not initialized properly.") s.
Proof.
  intros intents. cbn zeta.
  destruct (null_ref_run intents (mount false initial) eq_refl) as (Hr & Hd & Hl).
  change (detached (mount false initial)) with (@nil SpeechRecognition) in Hd.
  change (isListening (mount false initial)) with false in Hl.
  assert (head (effects (run intents (mount false initial)))
          = Some (Alert "Speech Recognition is not supported in this browser."))
    as Hhead.
  { apply (run_invariant
             (λ s, head (effects s)
                   = Some (Alert "Speech Recognition is not supported in this browser."))
             (λ _, true)); [|by apply forallb_forall|done].
    intros i s _. destruct s as [t st li lo ed cp rec det inf eff]; cbn.
    destruct eff as [|e eff]; [done|]. intros Hh.
    destruct i; unfold_page; cbn; repeat (case_match; cbn); done. }
  assert (react StartCapture (run intents (mount false initial))
          = emit (Alert "Speech recognition is not initialized properly.")
              (run intents (mount false initial))) as Hstart.
  { rewrite react_start, Hl. cbn [negb]. unfold startListening. by rewrite Hr. }
  unfold captureState, engine_running. rewrite Hr, Hd. by cbn.
Qed.

(** ** After the cleanup *)

Lemma detached_inactive_react i s :
  Forall (λ e, engine_active e = false) (detached s) →
  Forall (λ e, engine_active e = false) (detached (react i s)).
Proof.
  destruct s as [t st li lo ed cp rec det inf eff]; cbn. intros Hdet.
  destruct i; unfold_page; cbn; repeat (case_match; cbn); try done.
  apply Forall_app. split; [done|].
  destruct rec as [e|]; cbn; [|constructor].
  constructor; [by rewrite engine_active_receive | constructor].
Qed.

Lemma ui_detached_inactive s :
  ui_reachable s → Forall (λ e, engine_active e = false) (detached s).
Proof.
  induction 1 as [supported|i s _ IH]; [by destruct supported; constructor|].
  by apply detached_inactive_react.
Qed.

(** X8.  The cleanup is final.  Whatever the page did before it and
    whatever events arrive after it, the ref stays null, no engine of the
    component is capturing, the capture state is never Listening again, and
    the listening flag keeps the value it had (the cleanup does not reset
    it). *)
Theorem cleanup_is_final :
  ∀ (s : State) (intents : list Intent),
    ui_reachable s →
    let s' := run intents (cleanup s) in
    recognition s' = None
    ∧ engine_running s' = false
    ∧ captureState s' ≠ Listening
    ∧ isListening s' = isListening s.
Proof.
  intros s intents Hreach. cbn zeta.
  destruct (null_ref_run intents (cleanup s) eq_refl) as (Hr & Hd & Hl).
  assert (Forall (λ e, engine_active e = false) (detached (cleanup s))) as Hdet.
  { apply (ui_detached_inactive (react Teardown s)). by constructor. }
  unfold engine_running, captureState. rewrite Hr, Hd. cbn [option_list app].
  split; [done|]. split; [by apply existsb_inactive|].
  split; [by destruct (detached (cleanup s))|].
  rewrite Hl. unfold cleanup, call_engine. reflexivity.
Qed.

Lemma cleanup_is_final_witness :
  let s := run [StartCapture] (mount true initial) in
  let s' := run [StartCapture; CaptureError (mkEvent [] "no-speech")] (cleanup s) in
  isListening s = true
  ∧ recognition s' = None
  ∧ engine_running s' = false
  ∧ isListening s' = true.
Proof.
  intros s s'.
  destruct (cleanup_is_final s [StartCapture; CaptureError (mkEvent [] "no-speech")])
    as (Hr & Hrun & _ & Hl).
  { apply run_reachable. apply (ui_mounted true). }
  exact (conj eq_refl (conj Hr (conj Hrun Hl))).
Defined.

(** ** The engine's call log *)

Lemma no_double_start_snoc_stop l :
  no_double_start l = true → no_double_start (l ++ [CallStop]) = true.
Proof.
  induction l as [|c l IH]; [done|]. intros Hl.
  destruct c, l as [|[] l]; cbn in *; auto.
Qed.

Lemma no_double_start_snoc_start l :
  no_double_start l = true → last l ≠ Some CallStart →
  no_double_start (l ++ [CallStart]) = true.
Proof.
  induction l as [|c l IH]; [done|]. intros Hl Hlast.
  destruct c, l as [|[] l]; cbn in *; auto; try done.
Qed.

Lemma log_alternates_react i s :
  negb (is_restart i) = true → log_alternates s → log_alternates (react i s).
Proof.
  unfold log_alternates.
  destruct s as [t st li lo ed cp rec det inf eff]; cbn.
  intros Hi [Hcur Hdet].
  assert (∀ e, rec = Some e →
            no_double_start (calls (receive CallStop e)) = true
            ∧ engine_active (receive CallStop e) = false
            ∧ (li = false →
               no_double_start (calls (receive CallStart e)) = true
               ∧ engine_active (receive CallStart e) = true)) as Hcalls.
  { intros e He. destruct (Hcur e He) as [Hnds Hact].
    rewrite !engine_active_receive. cbn [receive calls].
    split; [by apply no_double_start_snoc_stop|]. split; [done|].
    intros ->. split; [|done]. apply no_double_start_snoc_start; [done|].
    unfold engine_active in Hact. intros Hlast. by rewrite Hlast in Hact. }
  destruct i; unfold_page; cbn; cbn in Hi;
    repeat (case_match; cbn); simplify_eq; try (split; done).
  - split; [|done]. intros e' [= <-].
    destruct (Hcalls _ eq_refl) as (_ & _ & Hstart). apply Hstart.
    by destruct li.
  - split; [|done]. intros e' [= <-].
    by destruct (Hcalls _ eq_refl) as (? & ? & _).
  - split; [done|]. apply Forall_app. split; [done|].
    destruct rec as [e|]; cbn; [|constructor].
    constructor; [|constructor]. by destruct (Hcalls _ eq_refl) as (? & _).
Qed.

(** X9.  Without "no-speech" restarts the buttons keep the engine's calls
    in order: from the mounted page, after any events that include no
    "no-speech" error, no engine of the component has received two
    [start()] in a row. *)
Theorem no_double_start_without_restart :
  ∀ (supported : bool) (intents : list Intent),
    forallb (λ i, negb (is_restart i)) intents = true →
    let s := run intents (mount supported initial) in
    ∀ e, e ∈ option_list (recognition s) ++ detached s →
         no_double_start (calls e) = true.
Proof.
  intros supported intents Hquiet. cbn zeta.
  assert (log_alternates (run intents (mount supported initial))) as [Hcur Hdet].
  { apply (run_invariant log_alternates (λ i, negb (is_restart i)));
      [apply log_alternates_react | done |].
    destruct supported; (split; [|constructor]); cbn; [|done].
    by intros e [= <-]. }
  intros e [He|He]%elem_of_app.
  - destruct (recognition _) as [e'|]; cbn in He.
    + apply list_elem_of_singleton in He as ->. by apply Hcur.
    + by apply elem_of_nil in He.
  - rewrite Forall_forall in Hdet. by apply Hdet.
Qed.

Lemma no_double_start_without_restart_witness :
  let s := run [StartCapture; StartCapture; CaptureError (mkEvent [] "network");
                StopCapture; StopCapture; StartCapture] (mount true initial) in
  recognition s = Some (mkEngine true false [CallStart; CallStop; CallStart])
  ∧ no_double_start [CallStart; CallStop; CallStart] = true.
Proof.
  intros s.
  pose proof (no_double_start_without_restart true
                [StartCapture; StartCapture; CaptureError (mkEvent [] "network");
                 StopCapture; StopCapture; StartCapture] eq_refl) as Hall.
  split; [reflexivity|].
  apply (Hall (mkEngine true false [CallStart; CallStop; CallStart])).
  apply elem_of_app. left. apply list_elem_of_singleton. reflexivity.
Defined.

(** ** Sequences of engine errors *)



(** ** Requests and edits *)

Lemma request_untouched_react i s :
  negb (is_summary_intent i) = true →
  inflight (react i s) = inflight s ∧ isLoading (react i s) = isLoading s.
Proof.
  destruct s as [t st li lo ed cp rec det inf eff]; cbn. intros Hi.
  destruct i; try discriminate Hi; unfold_page; cbn;
    repeat (case_match; cbn); done.
Qed.

(** X11.  Nothing cancels or alters a request once it is sent: recognition
    results, edits, clearing, start, stop, errors and the cleanup leave the
    outstanding request, with the transcript it was sent with, and the
    loading flag as they are. *)
Theorem request_survives_other_intents :
  ∀ (s : State) (intents : list Intent),
    transcription s ≠ "" → isLoading s = false →
    forallb (λ i, negb (is_summary_intent i)) intents = true →
    let s' := run intents (react RequestSummary s) in
    inflight s' = inflight s ++ [mkRequest (Some (transcription s))]
    ∧ isLoading s' = true.
Proof.
  intros s intents Hne Hidle Hother. cbn zeta.
  destruct (summarize_nonempty s Hne) as (Hin & _ & Hload).
  assert (react RequestSummary s = summarizeTranscription s) as ->.
  { apply truthy_true in Hne. by rewrite react_summarize, Hne, Hidle. }
  rewrite <- Hin, <- Hload.
  apply (run_invariant
           (λ s', inflight s' = inflight (summarizeTranscription s)
                  ∧ isLoading s' = isLoading (summarizeTranscription s))
           (λ i, negb (is_summary_intent i))); [|done|done].
  intros i s' Hi [<- <-]. by apply request_untouched_react.
Qed.

Lemma request_survives_other_intents_witness :
  let heard := mkEvent [mkResult (mkAlternative "ship Friday") []] "" in
  let s := run [StartCapture; RecognizedSegment heard] (mount true initial) in
  let s' := run [ClearAll; RecognizedSegment heard; StopCapture; Teardown]
              (react RequestSummary s) in
  inflight s' = [mkRequest (Some "ship Friday")] ∧ isLoading s' = true.
Proof.
  intros heard s s'.
  apply (request_survives_other_intents s
           [ClearAll; RecognizedSegment heard; StopCapture; Teardown]);
    [discriminate | reflexivity | reflexivity].
Defined.

(** X12.  A summary requested before a clear still arrives after it:
    settling after [clearTranscription] gives the state that settling gives,
    with only the transcript emptied. *)
Theorem clear_does_not_cancel :
  ∀ (o : FetchOutcome) (s : State),
    settle o (clearTranscription s) = setTranscription (λ _, "") (settle o s)
    ∧ summarizedText (settle o (clearTranscription s)) = settled_text o.
Proof. intros o s. split; reflexivity. Qed.

(** X13.  Editing the transcript down to nothing locks the editor out: the
    textarea, and the clear, edit and summarize buttons, are gone, so further
    typing, clearing, toggling and summarizing change nothing; a summary
    shown at that point stays, and edit mode stays on, so that the next
    recognized text reopens the textarea. *)
Theorem empty_edit_locks_out :
  ∀ s : State,
    textarea_rendered s = true →
    let s' := react (EditedText "") s in
    transcription s' = ""
    ∧ summarizedText s' = summarizedText s
    ∧ isEditing s' = true
    ∧ (∀ text, react (EditedText text) s' = s')
    ∧ react ClearAll s' = s'
    ∧ react ToggleEdit s' = s'
    ∧ react RequestSummary s' = s'
    ∧ (∀ ev, joined_transcript ev ≠ "" →
             textarea_rendered (react (RecognizedSegment ev) s') = true).
Proof.
  intros s Hshown. cbn zeta. cbn [react]. rewrite Hshown.
  unfold textarea_rendered in Hshown. apply andb_prop in Hshown as [_ Hed].
  repeat split; try done.
  intros ev Hev. unfold textarea_rendered. cbn. rewrite Hed.
  change ("" +:+ joined_transcript ev) with (joined_transcript ev).
  apply truthy_true in Hev. by rewrite Hev.
Qed.

Lemma empty_edit_locks_out_witness :
  let heard := mkEvent [mkResult (mkAlternative "draft") []] "" in
  let s := run [StartCapture; RecognizedSegment heard; ToggleEdit] (mount true initial) in
  let s' := react (EditedText "") s in
  transcription s' = "" ∧ react (EditedText "again") s' = s'.
Proof.
  intros heard s s'.
  destruct (empty_edit_locks_out s eq_refl) as (Ht & _ & _ & Hedit & _).
  exact (conj Ht (Hedit "again")).
Defined.

(** ** Copying *)

Lemma page_run_cons i intents p :
  page_run (i :: intents) p = page_run intents (page_react i p).
Proof. reflexivity. Qed.

Lemma react_isCopied i s : isCopied (react i s) = isCopied s.
Proof.
  destruct s as [t st li lo ed cp rec det inf eff]; cbn.
  destruct i; unfold_page; cbn; repeat (case_match; cbn); done.
Qed.

Lemma copy_sound_react i p : copy_sound p → copy_sound (page_react i p).
Proof.
  unfold copy_sound. intros [Hclip Hflag].
  destruct i as [i| |o|]; cbn [page_react].
  - cbn. by rewrite react_isCopied.
  - destruct (truthy (transcription (core p))) eqn:Ht; [|done].
    unfold copyTranscription. rewrite Ht. cbn. split; [|done].
    apply Forall_app. split; [done|]. constructor; [|constructor].
    by apply truthy_true.
  - destruct (writing p); [done|]. destruct o; cbn; [|done].
    split; [done|]. intros _. lia.
  - destruct (timers p) eqn:Hn; [by rewrite Hn|]. cbn. by split.
Qed.

Lemma page_single_flight p : page_reachable p → single_flight (core p).
Proof.
  induction 1 as [supported|i p _ IH].
  - right. by destruct supported.
  - destruct i as [i| |o|]; cbn [page_react].
    + by apply single_flight_react.
    + destruct (truthy _) eqn:Ht; [|done]. unfold copyTranscription. by rewrite Ht.
    + destruct (writing p); [done|]. by destruct o.
    + by destruct (timers p).
Qed.

(** X14.  In every state of the page, only non-empty texts have been
    handed to the clipboard, the writes still unsettled are among them in
    number, and whenever the "Copied!" flag is up a timer is still pending
    that will lower it: the flag cannot stay up for good. *)
Theorem copied_flag_has_timer :
  ∀ p : Page,
    page_reachable p →
    Forall (λ t, t ≠ "") (clipboard p)
    ∧ length (writing p) ≤ length (clipboard p)
    ∧ (isCopied (core p) = true →
       0 < timers p
       ∧ isCopied (core (page_react CopiedTimeout p)) = false).
Proof.
  intros p Hreach.
  assert (copy_sound p ∧ length (writing p) ≤ length (clipboard p))
    as [[Hclip Hflag] Hlen].
  { induction Hreach as [supported|i p _ [IH Hlen]].
    - split; [split; [constructor | by destruct supported]|done].
    - split; [by apply copy_sound_react|].
      destruct i as [i| |o|]; cbn [page_react]; [done|..].
      + destruct (truthy _) eqn:Ht; [|done]. unfold copyTranscription.
        rewrite Ht. cbn. rewrite !length_app. cbn. lia.
      + destruct (writing p) as [|w ws] eqn:Hw; [by rewrite Hw|].
        destruct o; cbn in *; rewrite Hw; cbn; lia.
      + destruct (timers p); [done|]. by cbn. }
  split; [done|]. split; [done|]. intros Hup. specialize (Hflag Hup).
  split; [done|]. cbn. by destruct (timers p); [lia|].
Qed.

Lemma copied_flag_has_timer_witness :
  let heard := mkEvent [mkResult (mkAlternative "minutes") []] "" in
  let p := page_run [Core StartCapture; Core (RecognizedSegment heard);
                     CopyTranscript; ClipboardSettled Written]
             (page_mounted true) in
  clipboard p = ["minutes"]
  ∧ isCopied (core p) = true
  ∧ 0 < timers p
  ∧ isCopied (core (page_react CopiedTimeout p)) = false.
Proof.
  intros heard p.
  destruct (copied_flag_has_timer p) as (_ & _ & Hflag).
  { repeat apply page_step. apply page_start. }
  destruct (Hflag eq_refl) as [Ht Hdown].
  exact (conj eq_refl (conj eq_refl (conj Ht Hdown))).
Defined.

Lemma copy_event_frame i p :
  is_copy_event i = true →
  transcription (core (page_react i p)) = transcription (core p)
  ∧ summarizedText (core (page_react i p)) = summarizedText (core p)
  ∧ isListening (core (page_react i p)) = isListening (core p)
  ∧ isLoading (core (page_react i p)) = isLoading (core p)
  ∧ isEditing (core (page_react i p)) = isEditing (core p)
  ∧ recognition (core (page_react i p)) = recognition (core p)
  ∧ inflight (core (page_react i p)) = inflight (core p).
Proof.
  destruct i as [i| |o|]; [discriminate|..]; intros _; cbn [page_react].
  - destruct (truthy _) eqn:Ht; [|done]. unfold copyTranscription. by rewrite Ht.
  - destruct (writing p); [done|]. by destruct o.
  - by destruct (timers p).
Qed.

(** X15.  Copying is separate from everything else: no sequence of copy
    clicks, settled writes and timeouts changes the transcript, the summary,
    capture, edit mode or the outstanding request; and no event of the
    component itself writes to the clipboard or sets a timer. *)
Theorem copy_is_separate :
  (∀ (intents : list PageIntent) (p : Page),
     forallb is_copy_event intents = true →
     let p' := page_run intents p in
     transcription (core p') = transcription (core p)
     ∧ summarizedText (core p') = summarizedText (core p)
     ∧ isListening (core p') = isListening (core p)
     ∧ isLoading (core p') = isLoading (core p)
     ∧ isEditing (core p') = isEditing (core p)
     ∧ recognition (core p') = recognition (core p)
     ∧ inflight (core p') = inflight (core p))
  ∧ (∀ (i : Intent) (p : Page),
       clipboard (page_react (Core i) p) = clipboard p
       ∧ writing (page_react (Core i) p) = writing p
       ∧ timers (page_react (Core i) p) = timers p
       ∧ isCopied (core (page_react (Core i) p)) = isCopied (core p)).
Proof.
  split.
  - induction intents as [|i intents IH]; intros p Hall; [done|].
    cbn in Hall. apply andb_prop in Hall as [Hi Hall].
    cbn zeta. rewrite page_run_cons.
    destruct (copy_event_frame i p Hi) as (<- & <- & <- & <- & <- & <- & <-).
    by apply IH.
  - intros i p. repeat split. apply react_isCopied.
Qed.

Lemma copy_is_separate_witness :
  let heard := mkEvent [mkResult (mkAlternative "minutes") []] "" in
  let p := page_run [Core StartCapture; Core (RecognizedSegment heard)]
             (page_mounted true) in
  transcription
    (core (page_run [CopyTranscript; ClipboardSettled (WriteFailed "denied");
                     CopyTranscript; ClipboardSettled Written; CopiedTimeout] p))
  = "minutes".
Proof.
  intros heard p.
  destruct copy_is_separate as [Hframe _].
  destruct (Hframe [CopyTranscript; ClipboardSettled (WriteFailed "denied");
                    CopyTranscript; ClipboardSettled Written; CopiedTimeout] p eq_refl)
    as (Ht & _).
  exact Ht.
Defined.

(** ** The tabbed page *)

Lemma tabbed_react_page i tp :
  page (tabbed_react i tp) = page tp
  ∨ ∃ j, page (tabbed_react i tp) = page_react j (page tp).
Proof.
  destruct i as [i|t]; cbn [tabbed_react]; [|by left].
  destruct (_ && _); [by left | right; by exists i].
Qed.

(** X16.  The tabs only take clicks away.  Every state the tabbed page
    reaches is one the page without tabs reaches, so there too at most one
    request is outstanding; and on the summary tab the copy, edit, clear and
    summarize controls and the textarea do nothing, while selecting a tab
    changes nothing but the tab. *)
Theorem tabs_refine_page :
  ∀ tp : TabbedPage,
    tabbed_reachable tp →
    page_reachable (page tp)
    ∧ length (inflight (core (page tp))) ≤ 1
    ∧ (activeTab tp = SummaryTab →
       ∀ i, in_transcription_panel i = true → tabbed_react (OnPage i) tp = tp)
    ∧ (∀ t, page (tabbed_react (SelectTab t) tp) = page tp).
Proof.
  intros tp Hreach.
  assert (page_reachable (page tp)) as Hpage.
  { induction Hreach as [supported|i tp _ IH]; [constructor|].
    destruct (tabbed_react_page i tp) as [->|[j ->]]; [done | by constructor]. }
  split; [done|]. split.
  - destruct (page_single_flight _ Hpage) as [[_ ->]|[_ ->]]; cbn; lia.
  - split; [|done]. intros Htab i Hi. cbn [tabbed_react]. by rewrite Hi, Htab.
Qed.

Lemma tabs_refine_page_witness :
  let heard := mkEvent [mkResult (mkAlternative "minutes") []] "" in
  let tp := tabbed_react (SelectTab SummaryTab)
              (tabbed_react (OnPage (Core (RecognizedSegment heard)))
                 (tabbed_react (OnPage (Core StartCapture)) (tabbed_mounted true))) in
  transcription (core (page tp)) = "minutes"
  ∧ tabbed_react (OnPage (Core RequestSummary)) tp = tp
  ∧ length (inflight (core (page tp))) ≤ 1.
Proof.
  intros heard tp.
  destruct (tabs_refine_page tp) as (_ & Hone & Hpanel & _).
  { repeat apply tabbed_step. apply tabbed_start. }
  exact (conj eq_refl (conj (Hpanel eq_refl (Core RequestSummary) eq_refl) Hone)).
Defined.
